(** * nice: panic handlers matched by error value or by artefact type

    A shallow embedding of [nice.go] (package [nice]): the registration
    function [Tackle] and the deferred method [Handler.With], together with
    the fragment of the Go run time they rest on: dynamic types
    ([reflect.Type]), interface values ([any], [error]), the [==] of
    interface values, [slices.Contains], [recover] and [panic].

    Scope of the model: values are built from booleans, integers, floats,
    strings, pointers, slices, structs, descriptors and defined types; a
    [reflect.Type] is always one of the package's own descriptors; the
    callback given to [With] is a function (not nil) that returns or panics;
    [With] runs as a deferred call, so [recover] sees the panic under way. *)

From Stdlib Require Import ZArith Floats.SpecFloat.
From stdpp Require Import base decidable option list strings gmap.

Set Warnings "-register-all".
Open Scope string_scope.

(** ** Go types *)

(** How a defined type declares the method [Error() string], if it does. *)
Inductive Receiver : Type :=
| NoErrorMethod
| ValueReceiver
| PointerReceiver.

(** A Go type, which is also what a [reflect.Type] descriptor stands for:
    two descriptors are [==] exactly when they describe identical types. *)
Inductive GoType : Type :=
| TBool
| TInt
| TFloat64
| TString
| TPointer (elem : GoType)
| TSlice (elem : GoType)
| TStruct (fields : list (string * GoType))
| TInterfaceError                  (* the interface type [error] *)
| TReflectRType                    (* [*reflect.rtype], the type of descriptors *)
| TDefined (name : string) (errorMethod : Receiver) (underlying : GoType).

(** ** Go values *)

(** A value of a concrete (non-interface) type.  A pointer carries its
    address and the object found there; [==] on pointers looks at the address
    only.  A slice is shown by its elements; slices have no [==]. *)
Inductive GoValue : Type :=
| VBool (b : bool)
| VInt (n : Z)
| VFloat64 (f : spec_float)
| VString (s : string)
| VNilPointer (elem : GoType)
| VPointer (addr : positive) (pointee : GoValue)
| VSlice (elem : GoType) (elems : list GoValue)
| VStruct (fields : list (string * GoValue))
| VReflectType (t : GoType)        (* the descriptor of [t] *)
| VDefined (name : string) (errorMethod : Receiver) (v : GoValue).

(** [reflect.TypeOf] on a non-nil interface value: its dynamic type. *)
Fixpoint typeOf (v : GoValue) : GoType :=
  match v with
  | VBool _ => TBool
  | VInt _ => TInt
  | VFloat64 _ => TFloat64
  | VString _ => TString
  | VNilPointer elem => TPointer elem
  | VPointer _ pointee => TPointer (typeOf pointee)
  | VSlice elem _ => TSlice elem
  | VStruct fields =>
      TStruct ((fix go (fs : list (string * GoValue)) :=
                  match fs with
                  | [] => []
                  | (n, x) :: fs' => (n, typeOf x) :: go fs'
                  end) fields)
  | VReflectType _ => TReflectRType
  | VDefined name m v => TDefined name m (typeOf v)
  end.

#[global] Instance Receiver_eq_dec : EqDecision Receiver.
Proof. solve_decision. Defined.

Fixpoint GoType_eqb (a b : GoType) : bool :=
  match a, b with
  | TBool, TBool | TInt, TInt | TFloat64, TFloat64 | TString, TString => true
  | TPointer x, TPointer y => GoType_eqb x y
  | TSlice x, TSlice y => GoType_eqb x y
  | TStruct fs, TStruct gs =>
      (fix go (fs gs : list (string * GoType)) : bool :=
         match fs, gs with
         | [], [] => true
         | (n, x) :: fs', (m, y) :: gs' =>
             bool_decide (n = m) && GoType_eqb x y && go fs' gs'
         | _, _ => false
         end) fs gs
  | TInterfaceError, TInterfaceError => true
  | TReflectRType, TReflectRType => true
  | TDefined n r x, TDefined m s y =>
      bool_decide (n = m) && bool_decide (r = s) && GoType_eqb x y
  | _, _ => false
  end.

(** The language's comparable types: a slice type is not, and a struct type
    is exactly when all its field types are. *)
Fixpoint comparable (t : GoType) : bool :=
  match t with
  | TSlice _ => false
  | TStruct fields =>
      (fix go (fs : list (string * GoType)) : bool :=
         match fs with
         | [] => true
         | (_, x) :: fs' => comparable x && go fs'
         end) fields
  | TDefined _ _ underlying => comparable underlying
  | _ => true
  end.

(** The method set of [t] holds [Error() string]: a defined type with a value
    receiver, or a pointer to a defined type with either receiver. *)
Definition implementsError (t : GoType) : bool :=
  match t with
  | TDefined _ ValueReceiver _ => true
  | TPointer (TDefined _ ValueReceiver _) => true
  | TPointer (TDefined _ PointerReceiver _) => true
  | _ => false
  end.

(** [rtype.String()]: the name the run time prints for a type. *)
Fixpoint typeString (t : GoType) : string :=
  match t with
  | TBool => "bool"
  | TInt => "int"
  | TFloat64 => "float64"
  | TString => "string"
  | TPointer elem => "*" ++ typeString elem
  | TSlice elem => "[]" ++ typeString elem
  | TStruct fields =>
      "struct {" ++
      (fix go (fs : list (string * GoType)) : string :=
         match fs with
         | [] => " }"
         | [(n, x)] => " " ++ n ++ " " ++ typeString x ++ " }"
         | (n, x) :: fs' => " " ++ n ++ " " ++ typeString x ++ ";" ++ go fs'
         end) fields
  | TInterfaceError => "error"
  | TReflectRType => "*reflect.rtype"
  | TDefined name _ _ => name
  end.

(** [==] on two values of one comparable type: numbers and strings by value
    (a NaN differs from itself), pointers by address, structs field by field,
    descriptors by the type they describe. *)
Fixpoint value_eqb (x y : GoValue) : bool :=
  match x, y with
  | VBool a, VBool b => Bool.eqb a b
  | VInt a, VInt b => Z.eqb a b
  | VFloat64 a, VFloat64 b => SFeqb a b
  | VString a, VString b => String.eqb a b
  | VNilPointer _, VNilPointer _ => true
  | VPointer a _, VPointer b _ => Pos.eqb a b
  | VStruct fs, VStruct gs =>
      (fix go (fs gs : list (string * GoValue)) : bool :=
         match fs, gs with
         | [], [] => true
         | (_, a) :: fs', (_, b) :: gs' => value_eqb a b && go fs' gs'
         | _, _ => false
         end) fs gs
  | VReflectType s, VReflectType t => GoType_eqb s t
  | VDefined _ _ a, VDefined _ _ b => value_eqb a b
  | _, _ => false
  end.

(** ** Interface values, comparisons that may fault, slices *)

(** An interface value is nil ([None]) or holds a concrete value, whose
    [typeOf] is its dynamic type. *)
Abbreviation any := (option GoValue).

(** An [error] is an interface value; a non-nil one holds a value whose
    dynamic type has the method [Error]. *)
Abbreviation error := (option GoValue) (only parsing).

(** A [reflect.Type] is nil or a descriptor, given by the type it describes. *)
Abbreviation reflect_Type := (option GoType).

(** The result of a step that may raise the run-time error
    "comparing uncomparable type t". *)
Inductive result (A : Type) : Type :=
| Ok (a : A)
| Fault (t : GoType).
Arguments Ok {A} a.
Arguments Fault {A} t.

#[global] Instance result_ret : MRet result := fun _ a => Ok a.
#[global] Instance result_bind : MBind result :=
  fun _ _ f m => match m with Ok a => f a | Fault t => Fault t end.

(** [x == y] on interface values: equal dynamic types and equal values;
    with identical dynamic types that are not comparable it panics. *)
Definition iface_eq (x y : any) : result bool :=
  match x, y with
  | None, None => Ok true
  | Some a, Some b =>
      if GoType_eqb (typeOf a) (typeOf b) then
        if comparable (typeOf a) then Ok (value_eqb a b)
        else Fault (typeOf a)
      else Ok false
  | _, _ => Ok false
  end.

(** [==] on [reflect.Type] values: descriptors are pointers, one per type. *)
Definition reflect_Type_eq (x y : reflect_Type) : result bool :=
  match x, y with
  | None, None => Ok true
  | Some s, Some t => Ok (GoType_eqb s t)
  | _, _ => Ok false
  end.

(** A slice is nil or has elements; [make([]E, 0)] is empty and not nil. *)
Inductive slice (E : Type) : Type :=
| nil_slice
| Slice (elems : list E).
Arguments nil_slice {E}.
Arguments Slice {E} elems.

Definition slice_elems {E} (s : slice E) : list E :=
  match s with nil_slice => [] | Slice l => l end.

Definition is_nil {E} (s : slice E) : bool :=
  match s with nil_slice => true | Slice _ => false end.

Definition make0 {E} : slice E := Slice [].

Definition append {E} (s : slice E) (x : E) : slice E :=
  Slice (slice_elems s ++ [x]).

Section Slices.
Context {E : Type} (eq : E -> E -> result bool).

(** The loop of [slices.Index]: [for i := range s { if v == s[i] { return i } }]. *)
Fixpoint index_from (v : E) (l : list E) (i : Z) : result Z :=
  match l with
  | [] => Ok (-1)%Z
  | x :: l' =>
      found ← eq v x;
      if found : bool then Ok i else index_from v l' (i + 1)%Z
  end.

Definition slices_Index (s : slice E) (v : E) : result Z :=
  index_from v (slice_elems s) 0%Z.

Definition slices_Contains (s : slice E) (v : E) : result bool :=
  i ← slices_Index s v; Ok (0 <=? i)%Z.
End Slices.

(** ** Panics *)

(** How a call ends: it returns, or it leaves with [panic(v)], [v] not nil. *)
Inductive Completion : Type :=
| Return
| Panic (v : GoValue).

(** [recover()] in a deferred call: the value of the panic under way, or nil. *)
Definition recover (unwinding : Completion) : any :=
  match unwinding with
  | Return => None
  | Panic v => Some v
  end.

(** The value the run time panics with when [==] meets an uncomparable type. *)
Definition runtime_error (t : GoType) : GoValue :=
  VDefined "runtime.errorString" ValueReceiver
    (VString ("comparing uncomparable type " ++ typeString t)).

(** ** The package *)

Record Handler : Type := {
  artefactTypes : slice reflect_Type;
  errorTypes : slice error
}.

(** [reflect.TypeFor[error]()]. *)
Definition typeOfError : reflect_Type := Some TInterfaceError.

Section With.
Context {W : Type}.

(** A [func(artefact any)]: it acts on the state of the program and
    returns or panics. *)
Definition callback : Type := any -> W -> W * Completion.

(** [h.With(handle)], run as a deferred call while the enclosing function
    is leaving with [unwinding].  The type switch either returns through
    [handle] or falls through to [panic(lastMsg)]. *)
Definition With (h : Handler) (handle : callback)
    (unwinding : Completion) (w : W) : W * Completion :=
  match recover unwinding with
  | Some lastMsg =>
      let switch : result (option (W * Completion)) :=
        if implementsError (typeOf lastMsg) then
          general ← slices_Contains reflect_Type_eq (artefactTypes h) typeOfError;
          if general : bool then Ok (Some (handle (Some lastMsg) w))
          else
            specific ← slices_Contains iface_eq (errorTypes h) (Some lastMsg);
            if specific : bool then Ok (Some (handle (Some lastMsg) w))
            else Ok None
        else
          let typeOfLastMsg := Some (typeOf lastMsg) in
          registered ← slices_Contains reflect_Type_eq (artefactTypes h) typeOfLastMsg;
          if registered : bool then Ok (Some (handle (Some lastMsg) w))
          else Ok None
      in
      match switch with
      | Ok (Some returned) => returned
      | Ok None => (w, Panic lastMsg)
      | Fault t => (w, Panic (runtime_error t))
      end
  | None => (w, Return)
  end.
End With.

(** [t.(error)]. *)
Definition assert_error (t : any) : option error :=
  match t with
  | Some v => if implementsError (typeOf v) then Some t else None
  | None => None
  end.

(** [t.(reflect.Type)]. *)
Definition assert_reflect_Type (t : any) : option reflect_Type :=
  match t with
  | Some (VReflectType d) => Some (Some d)
  | _ => None
  end.

(** The loop of [Tackle] over [targets]. *)
Fixpoint Tackle_range (targets : list any)
    (artefactTypes : slice reflect_Type) (errorTypes : slice error) : Handler :=
  match targets with
  | [] => {| artefactTypes := artefactTypes; errorTypes := errorTypes |}
  | t :: targets' =>
      match assert_error t with
      | Some errorType =>
          Tackle_range targets' artefactTypes (append errorTypes errorType)
      | None =>
          match assert_reflect_Type t with
          | Some artefactType =>
              Tackle_range targets' (append artefactTypes artefactType) errorTypes
          | None => Tackle_range targets' artefactTypes errorTypes
          end
      end
  end.

Definition Tackle (targets : list any) : Handler :=
  Tackle_range targets make0 make0.

(** ** The standard errors and the fixtures of the package's tests *)

(** [errors.New(text)]: a pointer to a fresh [errorString], at [addr]. *)
Definition errors_New (addr : positive) (text : string) : GoValue :=
  VPointer addr
    (VDefined "errors.errorString" PointerReceiver (VStruct [("s", VString text)])).

(** The method [Error] of a pointer to [errorString]. *)
Definition errorString_Error (e : GoValue) : option string :=
  match e with
  | VPointer _ (VDefined "errors.errorString" PointerReceiver (VStruct [(_, VString s)])) =>
      Some s
  | _ => None
  end.

(** [type ErrList []string], with [func (e ErrList) Error() string]. *)
Definition ErrList (items : list string) : GoValue :=
  VDefined "main.ErrList" ValueReceiver (VSlice TString (VString <$> items)).

(** [type Score float64], with [func (s Score) Error() string]. *)
Definition Score (f : spec_float) : GoValue :=
  VDefined "main.Score" ValueReceiver (VFloat64 f).

(** [type Celsius struct{ deg int }] and [type Kelvin struct{ deg int }]. *)
Definition Celsius (deg : Z) : GoValue :=
  VDefined "main.Celsius" NoErrorMethod (VStruct [("deg", VInt deg)]).
Definition Kelvin (deg : Z) : GoValue :=
  VDefined "main.Kelvin" NoErrorMethod (VStruct [("deg", VInt deg)]).

(** The mock of the tests, as a callback on the log of its calls: it records
    the artefact it is given and returns. *)
Definition record : @callback (list any) :=
  fun artefact log => ((log ++ [artefact])%list, Return).

(** ** Specification vocabulary *)

Section Scan.
Context {E : Type} (eq : E -> E -> result bool).

(** The loop of [slices.Index] without its index: the first element that
    compares equal gives [true], a comparison that panics ends the scan. *)
Fixpoint scan (v : E) (l : list E) : result bool :=
  match l with
  | [] => Ok false
  | x :: l' =>
      match eq v x with
      | Ok true => Ok true
      | Ok false => scan v l'
      | Fault t => Fault t
      end
  end.
End Scan.

(** The targets of a handler, as lists. *)
Definition typeTargets (h : Handler) : list reflect_Type :=
  slice_elems (artefactTypes h).
Definition valueTargets (h : Handler) : list error :=
  slice_elems (errorTypes h).

(** The payload has a target: for an error, the descriptor of [error] or a
    value target equal to it; for another payload, the descriptor of its
    dynamic type. *)
Definition matched (h : Handler) (p : GoValue) : Prop :=
  if implementsError (typeOf p)
  then typeOfError ∈ typeTargets h \/
       exists x, x ∈ valueTargets h /\ iface_eq (Some p) x = Ok true
  else Some (typeOf p) ∈ typeTargets h.

(** The scan of the value targets meets a comparison that panics: the
    payload is an error of an uncomparable type, the handler does not take
    all errors, and a value target has the type of the payload. *)
Definition faulting (h : Handler) (p : GoValue) : Prop :=
  implementsError (typeOf p) = true /\
  (typeOfError ∉ typeTargets h) /\
  comparable (typeOf p) = false /\
  exists a, Some a ∈ valueTargets h /\ typeOf a = typeOf p.

(** The ways a call of [With] can end. *)
Inductive Outcome : Type :=
| Idle
| Absorbed
| Propagated
| Faulted.

(** [reaches unwinding r o]: the call of [With] with the recording callback,
    entered while [unwinding], gave the log and completion [r], which is the
    outcome [o]. *)
Definition reaches (unwinding : Completion) (r : list any * Completion)
    (o : Outcome) : Prop :=
  match o with
  | Idle => unwinding = Return /\ r = ([], Return)
  | Absorbed => exists p, unwinding = Panic p /\ r = ([Some p], Return)
  | Propagated => exists p, unwinding = Panic p /\ r = ([], Panic p)
  | Faulted =>
      exists p, unwinding = Panic p /\ comparable (typeOf p) = false /\
                r = ([], Panic (runtime_error (typeOf p)))
  end.

(** The values of the package's tests. *)
Module Tests.
Definition customErr : GoValue := errors_New 1 "custom error".
Definition expected : GoValue := errors_New 2 "expected error".
Definition unexpected : GoValue := errors_New 3 "unexpected error".
Definition TypeFor (t : GoType) : any := Some (VReflectType t).
End Tests.

(** A handler and payloads of the uncomparable error type [ErrList]. *)
Module Uncomparable.
Definition registered : GoValue := ErrList ["a"].
Definition raised : GoValue := ErrList ["b"].
Definition byValue : Handler := Tackle [Some registered].
Definition byValueAndType : Handler :=
  Tackle [Tests.TypeFor (typeOf raised); Some registered].
End Uncomparable.

(** ** Deferred calls, and the functions of the package's tests *)

Section Defer.
Context {W : Type}.

(** A deferred call: run while the function is leaving with [unwinding], it
    leaves the program in a new state and the function returning or
    panicking.  [With h handle] is one: it calls [recover] first, so what it
    ends with is what the function is left with. *)
Definition deferred : Type := Completion -> W -> W * Completion.

(** The deferred calls of a function at its exit, the next to run first. *)
Fixpoint run_deferred (stack : list deferred) (unwinding : Completion) (w : W)
    : W * Completion :=
  match stack with
  | [] => (w, unwinding)
  | d :: stack' =>
      let '(w', unwinding') := d unwinding w in
      run_deferred stack' unwinding' w'
  end.

(** A function that runs the [defer] statements [registered], in this order,
    and then [body]: at its exit the last registered call runs first. *)
Definition function_exit (registered : list deferred)
    (body : W -> W * Completion) (w : W) : W * Completion :=
  let '(w', unwinding) := body w in
  run_deferred (reverse registered) unwinding w'.
End Defer.

(** [defer h.With(handle)], for the pair of [h] and [handle]. *)
Definition attach {W : Type} (a : Handler * @callback W) : @deferred W :=
  With a.1 a.2.

(** [panic(payload)] as the body of a function. *)
Definition panics {W : Type} (payload : GoValue) : W -> W * Completion :=
  fun w => (w, Panic payload).

(** [handle_test.go]: the mock, and the state of a test: the mocks by
    address and whether the test was marked as failed. *)
Record mockHandler : Type := { Executed : bool }.

Record testing : Type := {
  heap : gmap positive mockHandler;
  failed : bool
}.

(** [h.Executed], for the mock at address [h]. *)
Definition executed (h : positive) (t : testing) : bool :=
  match heap t !! h with
  | Some m => Executed m
  | None => false
  end.

(** [t.Errorf]: the test goes on and is marked as failed. *)
Definition Errorf (t : testing) : testing :=
  {| heap := heap t; failed := true |}.

(** [(m *mockHandler).Handle]: [m.Executed = true]; the log line is left out. *)
Definition Handle (m : positive) : @callback testing :=
  fun _ t =>
    ({| heap := <[m := {| Executed := true |}]> (heap t); failed := failed t |},
     Return).

(** [defer assertExecuted(t, h)]: it does not call [recover], so a panic
    under way goes on. *)
Definition assertExecuted (h : positive) : @deferred testing :=
  fun unwinding t => (if executed h t then t else Errorf t, unwinding).

(** [defer assertNotExecuted(t, h)]. *)
Definition assertNotExecuted (h : positive) : @deferred testing :=
  fun unwinding t => (if executed h t then Errorf t else t, unwinding).

(** The deferred closure of "no matched artefact type": it recovers, and
    fails the test when there was nothing to recover. *)
Definition expectFallthrough : @deferred testing :=
  fun unwinding t =>
    match recover unwinding with
    | None => (Errorf t, Return)
    | Some _ => (t, Return)
    end.

(** A test starts with its mocks allocated and not executed. *)
Definition fresh (addresses : list positive) : testing :=
  {| heap := list_to_map ((fun a => (a, {| Executed := false |})) <$> addresses);
     failed := false |}.

(** The shape of the tests with two mocks: the assertions are deferred
    first, then [h1st.With(m1st.Handle)], then [h2nd.With(m2nd.Handle)], and
    the body panics. *)
Definition two_handlers (asserts : list (@deferred testing))
    (h1st : Handler) (m1st : positive) (h2nd : Handler) (m2nd : positive)
    (payload : GoValue) : testing -> testing * Completion :=
  function_exit (asserts ++ [With h1st (Handle m1st); With h2nd (Handle m2nd)])
    (panics payload).

(** ** Equality of types *)

Lemma GoType_eqb_eq : forall a b : GoType, GoType_eqb a b = true <-> a = b.
Proof.
  fix IH 1. intros a b.
  destruct a, b; simpl; try (split; [reflexivity || discriminate | reflexivity || discriminate]).
  - rewrite IH. split; congruence.
  - rewrite IH. split; congruence.
  - revert fields0. induction fields as [|[n x] fs IHfs]; intros [|[m y] gs].
    + split; reflexivity.
    + split; discriminate.
    + split; discriminate.
    + rewrite !andb_true_iff, bool_decide_eq_true, IH, IHfs.
      split; [intros [[-> ->] Heq]; congruence | intros Heq; injection Heq; intros; subst; auto].
  - rewrite !andb_true_iff, !bool_decide_eq_true, IH.
    split; [intros [[-> ->] ->]; reflexivity | intros Heq; injection Heq; auto].
Qed.

Lemma GoType_eqb_refl (t : GoType) : GoType_eqb t t = true.
Proof. now apply GoType_eqb_eq. Qed.

Lemma GoType_eqb_neq (a b : GoType) : a <> b -> GoType_eqb a b = false.
Proof.
  intros Hne. destruct (GoType_eqb a b) eqn:Heq; [|reflexivity].
  now apply GoType_eqb_eq in Heq.
Qed.

#[global] Instance GoType_eq_dec : EqDecision GoType.
Proof.
  intros a b. destruct (GoType_eqb a b) eqn:Heq.
  - left. now apply GoType_eqb_eq.
  - right. intros ->. now rewrite GoType_eqb_refl in Heq.
Defined.

(** ** What [slices.Contains] computes *)

Section ContainsFacts.
Context {E : Type} (eq : E -> E -> result bool).

Lemma index_from_scan (v : E) (l : list E) (i : Z) :
  (0 <= i)%Z ->
  (r ← index_from eq v l i; Ok (0 <=? r)%Z) = scan eq v l.
Proof.
  revert i. induction l as [|x l IH]; intros i Hi; simpl.
  - reflexivity.
  - destruct (eq v x) as [[|]|t]; simpl.
    + f_equal. now apply Z.leb_le.
    + apply IH. lia.
    + reflexivity.
Qed.

Lemma slices_Contains_scan (s : slice E) (v : E) :
  slices_Contains eq s v = scan eq v (slice_elems s).
Proof. unfold slices_Contains, slices_Index. now apply index_from_scan. Qed.

Lemma scan_false (v : E) (l : list E) :
  (forall x, x ∈ l -> eq v x = Ok false) -> scan eq v l = Ok false.
Proof.
  induction l as [|x l IH]; intros Hall; simpl; [reflexivity|].
  rewrite (Hall x) by constructor.
  apply IH. intros y Hy. apply Hall. now constructor.
Qed.

(** No comparison with [v] faults: the scan is a membership test. *)
Lemma scan_true (v : E) (l : list E) (x : E) :
  (forall y t, y ∈ l -> eq v y <> Fault t) ->
  x ∈ l -> eq v x = Ok true -> scan eq v l = Ok true.
Proof.
  induction l as [|y l IH]; intros Hsafe Hin Hx; [inversion Hin|]. simpl.
  destruct (eq v y) as [[|]|t] eqn:Hy.
  - reflexivity.
  - apply IH.
    + intros z u Hz. apply Hsafe. now constructor.
    + apply elem_of_cons in Hin as [->|Hin]; [congruence | exact Hin].
    + exact Hx.
  - exfalso. apply (Hsafe y t); [constructor | exact Hy].
Qed.

(** No comparison with [v] gives [true]: a fault anywhere ends the scan. *)
Lemma scan_fault (v : E) (l : list E) (x : E) (t : GoType) :
  (forall y, y ∈ l -> eq v y <> Ok true) ->
  (forall y u, y ∈ l -> eq v y = Fault u -> u = t) ->
  x ∈ l -> eq v x = Fault t -> scan eq v l = Fault t.
Proof.
  induction l as [|y l IH]; intros Hnone Hsame Hin Hx; [inversion Hin|]. simpl.
  destruct (eq v y) as [[|]|u] eqn:Hy.
  - exfalso. apply (Hnone y); [constructor | exact Hy].
  - apply IH.
    + intros z Hz. apply Hnone. now constructor.
    + intros z w Hz. apply Hsame. now constructor.
    + apply elem_of_cons in Hin as [->|Hin]; [congruence | exact Hin].
    + exact Hx.
  - f_equal. apply (Hsame y); [constructor | exact Hy].
Qed.

Lemma scan_true_inv (v : E) (l : list E) :
  scan eq v l = Ok true -> exists x, x ∈ l /\ eq v x = Ok true.
Proof.
  induction l as [|y l IH]; simpl; [discriminate|].
  destruct (eq v y) as [[|]|t] eqn:Hy; intros Hscan.
  - exists y. split; [constructor | exact Hy].
  - destruct (IH Hscan) as (x & Hin & Hx). exists x. split; [now constructor | exact Hx].
  - discriminate.
Qed.

Lemma scan_fault_inv (v : E) (l : list E) (t : GoType) :
  scan eq v l = Fault t -> exists x, x ∈ l /\ eq v x = Fault t.
Proof.
  induction l as [|y l IH]; simpl; [discriminate|].
  destruct (eq v y) as [[|]|u] eqn:Hy; intros Hscan.
  - discriminate.
  - destruct (IH Hscan) as (x & Hin & Hx). exists x. split; [now constructor | exact Hx].
  - injection Hscan as ->. exists y. split; [constructor | exact Hy].
Qed.
End ContainsFacts.

(** Descriptors compare without fault, so containment among them is
    membership. *)
Lemma reflect_Type_eq_spec (x y : reflect_Type) :
  reflect_Type_eq x y = Ok (bool_decide (x = y)).
Proof.
  destruct x as [s|], y as [t|]; unfold reflect_Type_eq; f_equal; symmetry;
    try (now apply bool_decide_eq_false); try (now apply bool_decide_eq_true).
  destruct (GoType_eqb s t) eqn:Heq.
  - apply GoType_eqb_eq in Heq as ->. now apply bool_decide_eq_true.
  - apply bool_decide_eq_false. intros [= ->]. now rewrite GoType_eqb_refl in Heq.
Qed.

Lemma Contains_descriptor (s : slice reflect_Type) (d : reflect_Type) :
  slices_Contains reflect_Type_eq s d = Ok (bool_decide (d ∈ slice_elems s)).
Proof.
  rewrite slices_Contains_scan.
  induction (slice_elems s) as [|x l IH]; simpl.
  - f_equal; symmetry; apply bool_decide_eq_false; inversion 1.
  - rewrite reflect_Type_eq_spec. destruct (decide (d = x)) as [->|Hne].
    + rewrite bool_decide_eq_true_2 by reflexivity.
      f_equal. symmetry. apply bool_decide_eq_true. constructor.
    + rewrite bool_decide_eq_false_2 by exact Hne.
      rewrite IH. f_equal. apply bool_decide_ext. rewrite elem_of_cons.
      split; [now right | intros [Heq|Hin]; [contradiction | exact Hin]].
Qed.

(** What a comparison of the payload [p] with a value target can give. *)
Lemma iface_eq_fault (p : GoValue) (x : error) (t : GoType) :
  iface_eq (Some p) x = Fault t <->
  t = typeOf p /\ comparable (typeOf p) = false /\
  exists a, x = Some a /\ typeOf a = typeOf p.
Proof.
  destruct x as [a|]; simpl.
  - destruct (GoType_eqb (typeOf p) (typeOf a)) eqn:Heq.
    + apply GoType_eqb_eq in Heq.
      destruct (comparable (typeOf p)) eqn:Hc.
      * split; [discriminate | intros (_ & ? & _); discriminate].
      * split; [intros [= <-]; eauto 6 | intros (-> & _); reflexivity].
    + split; [discriminate|].
      intros (_ & _ & b & [= <-] & Hb). rewrite Hb, GoType_eqb_refl in Heq. discriminate.
  - split; [discriminate | intros (_ & _ & a & ? & _); discriminate].
Qed.

Lemma iface_eq_true_comparable (p : GoValue) (x : error) :
  iface_eq (Some p) x = Ok true -> comparable (typeOf p) = true.
Proof.
  destruct x as [a|]; simpl; [|discriminate].
  destruct (GoType_eqb _ _); [|discriminate].
  now destruct (comparable (typeOf p)).
Qed.

(** One payload never meets both a target that equals it and a target whose
    comparison faults. *)
Lemma iface_eq_true_excludes_fault (p : GoValue) (x y : error) (t : GoType) :
  iface_eq (Some p) x = Ok true -> iface_eq (Some p) y <> Fault t.
Proof.
  intros Hx Hy. apply iface_eq_true_comparable in Hx.
  apply iface_eq_fault in Hy as (_ & Hc & _). congruence.
Qed.

(** ** The branches of [With] *)

Section WithBranches.
Context {W : Type} (h : Handler) (handle : @callback W) (p : GoValue) (w : W).

Lemma With_idle : With h handle Return w = (w, Return).
Proof. reflexivity. Qed.

Lemma With_general :
  implementsError (typeOf p) = true ->
  typeOfError ∈ typeTargets h ->
  With h handle (Panic p) w = handle (Some p) w.
Proof.
  intros Herr Hin. unfold With. simpl. rewrite Herr, Contains_descriptor.
  now rewrite bool_decide_eq_true_2.
Qed.

Lemma With_error_scan :
  implementsError (typeOf p) = true ->
  typeOfError ∉ typeTargets h ->
  With h handle (Panic p) w =
    match scan iface_eq (Some p) (valueTargets h) with
    | Ok true => handle (Some p) w
    | Ok false => (w, Panic p)
    | Fault t => (w, Panic (runtime_error t))
    end.
Proof.
  intros Herr Hnotin. unfold With. simpl. rewrite Herr, Contains_descriptor.
  rewrite bool_decide_eq_false_2 by exact Hnotin. simpl.
  rewrite slices_Contains_scan. unfold valueTargets.
  destruct (scan iface_eq (Some p) (slice_elems (errorTypes h))) as [[|]|t];
    reflexivity.
Qed.

Lemma With_specific (x : error) :
  implementsError (typeOf p) = true ->
  typeOfError ∉ typeTargets h ->
  x ∈ valueTargets h ->
  iface_eq (Some p) x = Ok true ->
  With h handle (Panic p) w = handle (Some p) w.
Proof.
  intros Herr Hnotin Hin Heq. rewrite With_error_scan by assumption.
  rewrite (scan_true iface_eq (Some p) (valueTargets h) x); auto.
  intros y t _. now apply (iface_eq_true_excludes_fault p x).
Qed.

Lemma With_error_unmatched :
  implementsError (typeOf p) = true ->
  typeOfError ∉ typeTargets h ->
  (forall x, x ∈ valueTargets h -> iface_eq (Some p) x = Ok false) ->
  With h handle (Panic p) w = (w, Panic p).
Proof.
  intros Herr Hnotin Hall. rewrite With_error_scan by assumption.
  now rewrite scan_false.
Qed.

Lemma With_error_fault (a : GoValue) :
  implementsError (typeOf p) = true ->
  typeOfError ∉ typeTargets h ->
  Some a ∈ valueTargets h ->
  typeOf a = typeOf p ->
  comparable (typeOf p) = false ->
  With h handle (Panic p) w = (w, Panic (runtime_error (typeOf p))).
Proof.
  intros Herr Hnotin Hin Hty Hc. rewrite With_error_scan by assumption.
  rewrite (scan_fault iface_eq (Some p) (valueTargets h) (Some a) (typeOf p)); auto.
  - intros y _ Hy. apply iface_eq_true_comparable in Hy. congruence.
  - intros y u _ Hy. now apply iface_eq_fault in Hy as (-> & _).
  - apply iface_eq_fault. eauto.
Qed.

Lemma With_artefact :
  implementsError (typeOf p) = false ->
  With h handle (Panic p) w =
    if bool_decide (Some (typeOf p) ∈ typeTargets h) then handle (Some p) w
    else (w, Panic p).
Proof.
  intros Herr. unfold With. simpl. rewrite Herr, Contains_descriptor.
  unfold typeTargets. now case_bool_decide.
Qed.
End WithBranches.

(** The value raised for an uncomparable type is not a value of that type. *)
Lemma runtime_error_distinct (p : GoValue) :
  comparable (typeOf p) = false -> runtime_error (typeOf p) <> p.
Proof. intros Hc Heq. rewrite <- Heq in Hc. discriminate Hc. Qed.


(** ** The tests of the package *)

Module TestRuns.
Import Tests.

(** "handle": the generic descriptor takes any error. *)
Example handle_general :
  With (Tackle [TypeFor TInterfaceError]) record (Panic customErr) []
  = ([Some customErr], Return).
Proof. reflexivity. Qed.

(** "handle different artefact types with different handlers": the handler
    for errors lets a string through, the one for strings takes it. *)
Example handle_string :
  With (Tackle [TypeFor TInterfaceError]) record (Panic (VString "error message string")) []
  = ([], Panic (VString "error message string")) /\
  With (Tackle [TypeFor TString]) record (Panic (VString "error message string")) []
  = ([Some (VString "error message string")], Return).
Proof. split; reflexivity. Qed.

(** "handle exact error type". *)
Example handle_exact :
  With (Tackle [Some unexpected]) record (Panic expected) [] = ([], Panic expected) /\
  With (Tackle [Some expected]) record (Panic expected) [] = ([Some expected], Return).
Proof. split; reflexivity. Qed.

(** "no matched artefact type": [panic(7)] passes both handlers. *)
Example no_match :
  With (Tackle [TypeFor TString]) record (Panic (VInt 7)) [] = ([], Panic (VInt 7)) /\
  With (Tackle [TypeFor TInterfaceError]) record (Panic (VInt 7)) [] = ([], Panic (VInt 7)).
Proof. split; reflexivity. Qed.

(** [TestTackle], "Multiple Artefact Types". *)
Example tackle_multiple :
  Tackle [TypeFor TString; TypeFor TInterfaceError; Some customErr]
  = {| artefactTypes := Slice [Some TString; Some TInterfaceError];
       errorTypes := Slice [Some customErr] |}.
Proof. reflexivity. Qed.

(** Two struct types of one shape are two types. *)
Example similar_struct :
  With (Tackle [TypeFor (typeOf (Celsius 0))]) record (Panic (Kelvin 21)) []
  = ([], Panic (Kelvin 21)) /\
  With (Tackle [TypeFor (typeOf (Celsius 0))]) record (Panic (Celsius 21)) []
  = ([Some (Celsius 21)], Return).
Proof. split; reflexivity. Qed.

End TestRuns.

(** ** Properties of [With] and [Tackle] *)

(** C1: a handler whose type targets hold the descriptor of [error] takes
    every payload that is an error: [handle] is called on the payload and
    [With] ends as that call ends, so with a callback that returns the panic
    is absorbed.  The value targets play no part: the answer is the same for
    any of them, also for targets the payload cannot be compared with. *)
Theorem With_general_error_first {W : Type}
    (h : Handler) (handle : @callback W) (p : GoValue) (w : W) :
  implementsError (typeOf p) = true ->
  typeOfError ∈ typeTargets h ->
  With h handle (Panic p) w = handle (Some p) w /\
  With h record (Panic p) [] = ([Some p], Return) /\
  (forall values : slice error,
     With {| artefactTypes := artefactTypes h; errorTypes := values |}
       handle (Panic p) w = handle (Some p) w).
Proof.
  intros Herr Hin. split; [|split].
  - now apply With_general.
  - now rewrite With_general.
  - intros values. now apply With_general.
Qed.

Lemma With_general_error_first_witness :
  With (Tackle [Tests.TypeFor TInterfaceError; Some (ErrList ["a"])])
    record (Panic (ErrList ["b"])) []
  = ([Some (ErrList ["b"])], Return).
Proof.
  destruct (With_general_error_first
              (Tackle [Tests.TypeFor TInterfaceError; Some (ErrList ["a"])])
              record (ErrList ["b"]) []) as (_ & Hlog & _).
  - reflexivity.
  - constructor.
  - exact Hlog.
Defined.

(** C3: for a payload that is not an error, [With] calls [handle] on it
    exactly when the type targets hold the descriptor of its dynamic type;
    otherwise the payload is raised again and [handle] is not called.  A
    target of any other type, whatever its shape, does not take it. *)
Theorem With_artefact_type {W : Type}
    (h : Handler) (handle : @callback W) (p : GoValue) (w : W) :
  implementsError (typeOf p) = false ->
  (Some (typeOf p) ∈ typeTargets h ->
     With h handle (Panic p) w = handle (Some p) w /\
     With h record (Panic p) [] = ([Some p], Return)) /\
  (Some (typeOf p) ∉ typeTargets h ->
     With h handle (Panic p) w = (w, Panic p) /\
     With h record (Panic p) [] = ([], Panic p)) /\
  ((With h record (Panic p) []).1 = [Some p] <-> Some (typeOf p) ∈ typeTargets h) /\
  (forall t : GoType,
     artefactTypes h = Slice [Some t] -> t <> typeOf p ->
     With h handle (Panic p) w = (w, Panic p)).
Proof.
  intros Herr. repeat split.
  - rewrite With_artefact by exact Herr. now rewrite bool_decide_eq_true_2.
  - rewrite With_artefact by exact Herr. now rewrite bool_decide_eq_true_2.
  - rewrite With_artefact by exact Herr. now rewrite bool_decide_eq_false_2.
  - rewrite With_artefact by exact Herr. now rewrite bool_decide_eq_false_2.
  - rewrite With_artefact by exact Herr. case_bool_decide; [auto | discriminate].
  - intros Hin. rewrite With_artefact by exact Herr. now rewrite bool_decide_eq_true_2.
  - intros t Ht Hne. rewrite With_artefact by exact Herr.
    rewrite bool_decide_eq_false_2; [reflexivity|].
    unfold typeTargets. rewrite Ht. simpl. rewrite list_elem_of_singleton. congruence.
Qed.

Lemma With_artefact_type_witness :
  With (Tackle [Tests.TypeFor TString]) record (Panic (VInt 7)) [] = ([], Panic (VInt 7)).
Proof.
  destruct (With_artefact_type (Tackle [Tests.TypeFor TString]) record (VInt 7) [])
    as (_ & Hnone & _).
  - reflexivity.
  - apply Hnone. intros Hin. apply list_elem_of_singleton in Hin. discriminate Hin.
Defined.

(** C7: when the enclosing function leaves normally, [recover] gives nil and
    [With] returns at once: the state is untouched and [handle] is not
    called. *)
Theorem With_normal_exit {W : Type} (h : Handler) (handle : @callback W) (w : W) :
  recover Return = None /\
  With h handle Return w = (w, Return) /\
  With h record Return [] = ([], Return).
Proof. repeat split. Qed.

(** C10: the handler of [Tackle()] has two empty containers and takes
    nothing: whatever the payload, [With] raises it again and [handle] is
    not called. *)
Theorem With_empty_Tackle {W : Type} (handle : @callback W) (p : GoValue) (w : W) :
  Tackle [] = {| artefactTypes := Slice []; errorTypes := Slice [] |} /\
  With (Tackle []) handle (Panic p) w = (w, Panic p) /\
  With (Tackle []) record (Panic p) [] = ([], Panic p).
Proof.
  split; [reflexivity|].
  assert (Hany : forall V (hd : @callback V) (v : V),
             With (Tackle []) hd (Panic p) v = (v, Panic p)).
  { intros V hd v. destruct (implementsError (typeOf p)) eqn:Herr.
    - apply With_error_unmatched; [exact Herr | inversion 1 | inversion 1].
    - rewrite With_artefact by exact Herr.
      rewrite bool_decide_eq_false_2; [reflexivity | inversion 1]. }
  split; apply Hany.
Qed.

(** A descriptor is not an error, so the two assertions of [Tackle] never
    both succeed. *)
Lemma assert_reflect_Type_not_error (t : any) (d : reflect_Type) :
  assert_reflect_Type t = Some d -> assert_error t = None.
Proof. destruct t as [[]|]; simpl; intros Hd; try discriminate Hd; reflexivity. Qed.

Lemma assert_error_same (t : any) (e : error) : assert_error t = Some e -> e = t.
Proof.
  destruct t as [v|]; simpl; [|discriminate].
  destruct (implementsError (typeOf v)); congruence.
Qed.

Lemma assert_reflect_Type_same (t : any) (d : reflect_Type) :
  assert_reflect_Type t = Some d -> t = (VReflectType <$> d).
Proof.
  destruct t as [[]|]; simpl; intros Hd; try discriminate Hd.
  now injection Hd as <-.
Qed.

Lemma Tackle_range_spec (targets : list any) (ts : list reflect_Type) (vs : list error) :
  Tackle_range targets (Slice ts) (Slice vs) =
  {| artefactTypes := Slice (ts ++ omap assert_reflect_Type targets);
     errorTypes := Slice (vs ++ omap assert_error targets) |}.
Proof.
  revert ts vs. induction targets as [|t targets IH]; intros ts vs; simpl.
  - now rewrite !app_nil_r.
  - destruct (assert_error t) as [e|] eqn:He.
    + destruct (assert_reflect_Type t) as [d|] eqn:Hd.
      * apply assert_reflect_Type_not_error in Hd. congruence.
      * unfold append. simpl. rewrite IH. now rewrite <- app_assoc.
    + destruct (assert_reflect_Type t) as [d|] eqn:Hd.
      * unfold append. simpl. rewrite IH. now rewrite <- app_assoc.
      * apply IH.
Qed.

(** C5: [Tackle] returns a handler with two containers that are not nil.
    The value targets are the targets that are errors, the type targets are
    the targets that are descriptors, each in the order of the call; a target
    that is neither is in neither container, and [Tackle], a total function,
    raises nothing for it. *)
Theorem Tackle_partition (targets : list any) :
  is_nil (artefactTypes (Tackle targets)) = false /\
  is_nil (errorTypes (Tackle targets)) = false /\
  valueTargets (Tackle targets) = omap assert_error targets /\
  typeTargets (Tackle targets) = omap assert_reflect_Type targets /\
  (forall t e, t ∈ targets -> assert_error t = Some e ->
     e = t /\ t ∈ valueTargets (Tackle targets)) /\
  (forall t d, t ∈ targets -> assert_reflect_Type t = Some d ->
     t = (VReflectType <$> d) /\ d ∈ typeTargets (Tackle targets)) /\
  (forall t, t ∈ targets -> assert_error t = None -> assert_reflect_Type t = None ->
     (t ∉ valueTargets (Tackle targets)) /\
     (forall d, d ∈ typeTargets (Tackle targets) -> t <> (VReflectType <$> d))).
Proof.
  unfold Tackle, make0, valueTargets, typeTargets.
  rewrite Tackle_range_spec. simpl.
  split; [reflexivity|]. split; [reflexivity|].
  split; [reflexivity|]. split; [reflexivity|].
  split; [|split].
  - intros t e Hin He. pose proof (assert_error_same _ _ He) as Heq. subst e.
    split; [reflexivity|]. apply list_elem_of_omap. eauto.
  - intros t d Hin Hd. split; [now apply assert_reflect_Type_same|].
    apply list_elem_of_omap. eauto.
  - intros t Hin He Hd. split.
    + intros Hmem. apply list_elem_of_omap in Hmem as (u & _ & Hu).
      pose proof (assert_error_same _ _ Hu) as Heq. congruence.
    + intros d Hmem Heq. apply list_elem_of_omap in Hmem as (u & _ & Hu).
      pose proof (assert_reflect_Type_same _ _ Hu) as Heq'. congruence.
Qed.

(** The scan of the value targets does not depend on their order. *)
Lemma scan_iface_eq_Permutation (p : GoValue) (l l' : list error) :
  l ≡ₚ l' -> scan iface_eq (Some p) l = scan iface_eq (Some p) l'.
Proof.
  induction 1 as [|x l l' _ IH|x y l|l l' l'' _ IH1 _ IH2]; cbn [scan].
  - reflexivity.
  - now rewrite IH.
  - destruct (iface_eq (Some p) x) as [[|]|t] eqn:Hx,
             (iface_eq (Some p) y) as [[|]|u] eqn:Hy; try reflexivity.
    + exfalso. eapply iface_eq_true_excludes_fault; [exact Hx | exact Hy].
    + exfalso. eapply iface_eq_true_excludes_fault; [exact Hy | exact Hx].
    + apply iface_eq_fault in Hx as (-> & _), Hy as (-> & _). reflexivity.
  - congruence.
Qed.

(** C9: two handlers whose type targets are a permutation of each other, and
    whose value targets are too, behave alike in [With]: for every callback,
    state and payload the same call of [handle], or the same panic. *)
Theorem With_Permutation {W : Type}
    (h1 h2 : Handler) (handle : @callback W) (unwinding : Completion) (w : W) :
  typeTargets h1 ≡ₚ typeTargets h2 ->
  valueTargets h1 ≡ₚ valueTargets h2 ->
  With h1 handle unwinding w = With h2 handle unwinding w.
Proof.
  intros Hts Hvs. destruct unwinding as [|p]; [reflexivity|].
  assert (Hmem : forall d, bool_decide (d ∈ typeTargets h1) = bool_decide (d ∈ typeTargets h2)).
  { intros d. apply bool_decide_ext. now rewrite Hts. }
  destruct (implementsError (typeOf p)) eqn:Herr.
  - destruct (decide (typeOfError ∈ typeTargets h1)) as [Hin|Hnotin].
    + rewrite !With_general; auto. now rewrite <- Hts.
    + rewrite !With_error_scan; auto; [|now rewrite <- Hts].
      now rewrite (scan_iface_eq_Permutation p _ _ Hvs).
  - rewrite !With_artefact by exact Herr. now rewrite Hmem.
Qed.

Lemma With_Permutation_witness :
  With (Tackle [Some Tests.expected; Tests.TypeFor TString; Some Tests.unexpected; Tests.TypeFor TInt])
    record (Panic Tests.unexpected) []
  = With (Tackle [Tests.TypeFor TInt; Some Tests.unexpected; Some Tests.expected; Tests.TypeFor TString])
      record (Panic Tests.unexpected) [].
Proof.
  apply With_Permutation.
  - apply Permutation_swap.
  - apply Permutation_swap.
Defined.

(** C2, as stated, fails: [==] is not reflexive.  A handler registered with
    the error [Score(NaN)] alone does not call [handle] when that same value is
    raised: the scan of the value targets compares it unequal to itself, and
    it is raised again. *)
Lemma With_specific_error_not_reflexive :
  implementsError (typeOf (Score S754_nan)) = true /\
  valueTargets (Tackle [Some (Score S754_nan)]) = [Some (Score S754_nan)] /\
  typeTargets (Tackle [Some (Score S754_nan)]) = [] /\
  iface_eq (Some (Score S754_nan)) (Some (Score S754_nan)) = Ok false /\
  With (Tackle [Some (Score S754_nan)]) record (Panic (Score S754_nan)) []
    = ([], Panic (Score S754_nan)) /\
  With (Tackle [Some (Score S754_nan)]) record (Panic (Score S754_nan)) []
    <> ([Some (Score S754_nan)], Return).
Proof. repeat split. discriminate. Qed.

(** The same handler shape with an error of a type without [==]: raising the
    registered value itself ends in the run-time panic of the comparison. *)
Lemma With_specific_error_uncomparable :
  implementsError (typeOf Uncomparable.registered) = true /\
  valueTargets Uncomparable.byValue = [Some Uncomparable.registered] /\
  typeTargets Uncomparable.byValue = [] /\
  With Uncomparable.byValue record (Panic Uncomparable.registered) []
    = ([], Panic (runtime_error (typeOf Uncomparable.registered))) /\
  With Uncomparable.byValue record (Panic Uncomparable.registered) []
    <> ([Some Uncomparable.registered], Return).
Proof. repeat split. discriminate. Qed.

(** C2, amended: a handler that has the error [E] among its value targets
    and not the descriptor of [error], where [E == E] holds, calls [handle]
    on a raised [E] and ends as that call ends.  A raised error [F] for which [F == E] does not
    hold is never taken on account of [E]: if it is taken, another target
    equals it, and if [E] is the only value target [handle] is not called
    and [F] is raised again.  Equal texts make no difference: two errors made by
    [errors.New] with one text are two values. *)
Theorem With_specific_error {W : Type}
    (h : Handler) (handle : @callback W) (E : GoValue) (w : W) :
  implementsError (typeOf E) = true ->
  Some E ∈ valueTargets h ->
  typeOfError ∉ typeTargets h ->
  iface_eq (Some E) (Some E) = Ok true ->
  (With h handle (Panic E) w = handle (Some E) w /\
   With h record (Panic E) [] = ([Some E], Return)) /\
  (forall F : GoValue,
     implementsError (typeOf F) = true ->
     iface_eq (Some F) (Some E) <> Ok true ->
     ((With h record (Panic F) []).1 = [Some F] ->
        exists x, x ∈ valueTargets h /\ x <> Some E /\ iface_eq (Some F) x = Ok true) /\
     (valueTargets h = [Some E] ->
        With h record (Panic F) [] = ([], Panic F) /\
        With h handle (Panic F) w = (w, Panic F))) /\
  (forall (a b : positive) (text : string),
     a <> b ->
     errorString_Error (errors_New a text) = errorString_Error (errors_New b text) /\
     With (Tackle [Some (errors_New a text)]) handle (Panic (errors_New b text)) w
       = (w, Panic (errors_New b text))).
Proof.
  intros Herr Hin Hnotin Hrefl. split; [|split].
  - split.
    + now apply (With_specific h handle E w (Some E)).
    + now rewrite (With_specific h record E [] (Some E)).
  - intros F HerrF Hne. split.
    + rewrite With_error_scan by assumption.
      destruct (scan iface_eq (Some F) (valueTargets h)) as [[|]|t] eqn:Hscan;
        [|discriminate..].
      intros _. apply scan_true_inv in Hscan as (x & Hx & Heq).
      exists x. repeat split; [exact Hx | congruence | exact Heq].
    + intros Honly. rewrite !With_error_scan by assumption. rewrite Honly.
      cbn [scan]. destruct (iface_eq (Some F) (Some E)) as [[|]|t] eqn:HFE.
      * congruence.
      * split; reflexivity.
      * apply iface_eq_fault in HFE as (_ & HcF & a & [= <-] & Hty).
        apply iface_eq_true_comparable in Hrefl. congruence.
  - intros a b text Hab. split; [reflexivity|].
    apply With_error_unmatched; [reflexivity | inversion 1 |].
    intros x Hx. apply list_elem_of_singleton in Hx as ->.
    unfold iface_eq, errors_New. cbn.
    rewrite !bool_decide_eq_true_2 by reflexivity. cbn.
    destruct (Pos.eqb_spec b a) as [->|_]; [contradiction | reflexivity].
Qed.

Lemma With_specific_error_witness :
  With (Tackle [Some Tests.expected]) record (Panic Tests.expected) []
  = ([Some Tests.expected], Return).
Proof.
  destruct (With_specific_error (Tackle [Some Tests.expected]) record Tests.expected [])
    as ((_ & Hlog) & _).
  - reflexivity.
  - constructor.
  - inversion 1.
  - reflexivity.
  - exact Hlog.
Defined.

(** The payload has no target and no comparison panics: every value target
    compares unequal to it. *)
Lemma unmatched_compares_false (h : Handler) (p : GoValue) :
  implementsError (typeOf p) = true ->
  ~ matched h p -> ~ faulting h p ->
  (typeOfError ∉ typeTargets h) /\
  forall x, x ∈ valueTargets h -> iface_eq (Some p) x = Ok false.
Proof.
  intros Herr Hunmatched Hsafe. unfold matched in Hunmatched. rewrite Herr in Hunmatched.
  assert (Hnotin : typeOfError ∉ typeTargets h) by (intros Hin; apply Hunmatched; now left).
  split; [exact Hnotin|]. intros x Hx.
  destruct (iface_eq (Some p) x) as [[|]|t] eqn:Heq.
  - exfalso. apply Hunmatched. right. eauto.
  - reflexivity.
  - exfalso. apply Hsafe. apply iface_eq_fault in Heq as (_ & Hc & a & -> & Hty).
    unfold faulting. eauto 8.
Qed.

(** C4: the code at the input where it leaves the claim.  The raised
    [ErrList] has no target in the handler (no descriptor, and the one value
    target is another list), yet [With] does not reach its last line and
    raise it again: comparing it with the target panics with a run-time
    error, which is what the enclosing [recover] sees. *)
Lemma With_unmatched_uncomparable :
  ~ matched Uncomparable.byValue Uncomparable.raised /\
  With Uncomparable.byValue record (Panic Uncomparable.raised) []
    = ([], Panic (runtime_error (typeOf Uncomparable.raised))) /\
  recover (With Uncomparable.byValue record (Panic Uncomparable.raised) []).2
    <> Some Uncomparable.raised.
Proof.
  split; [|split].
  - unfold matched. cbn. intros [Hin|(x & Hin & Heq)].
    + inversion Hin.
    + apply list_elem_of_singleton in Hin as ->. discriminate Heq.
  - reflexivity.
  - discriminate.
Qed.



(** C6: the code at the input where it leaves the claim.  The raised
    [ErrList] is an error whose own type descriptor is registered, the
    descriptor of [error] is absent and no value target is identical to it,
    yet [With] does not raise it again: the comparison with the value target
    of the same type panics. *)
Lemma With_error_own_type_uncomparable :
  implementsError (typeOf Uncomparable.raised) = true /\
  Some (typeOf Uncomparable.raised) ∈ typeTargets Uncomparable.byValueAndType /\
  (typeOfError ∉ typeTargets Uncomparable.byValueAndType) /\
  (forall x, x ∈ valueTargets Uncomparable.byValueAndType ->
     iface_eq (Some Uncomparable.raised) x <> Ok true) /\
  With Uncomparable.byValueAndType record (Panic Uncomparable.raised) []
    = ([], Panic (runtime_error (typeOf Uncomparable.raised))) /\
  With Uncomparable.byValueAndType record (Panic Uncomparable.raised) []
    <> ([], Panic Uncomparable.raised).
Proof.
  split; [reflexivity|]. split; [constructor|]. split; [|split; [|split]].
  - intros Hin. apply list_elem_of_singleton in Hin. discriminate Hin.
  - intros x Hin. apply list_elem_of_singleton in Hin as ->. discriminate.
  - reflexivity.
  - discriminate.
Qed.

(** Away from that fault, for a payload that is an error only the
    descriptor of [error] and the value targets count.  When the descriptor
    of the payload's own dynamic type is registered, the descriptor of [error]
    is not, and every value target compares unequal to the payload (no
    comparison gives true and none panics), the payload is raised again and
    [handle] is not called. *)
Theorem With_error_ignores_own_type {W : Type}
    (h : Handler) (handle : @callback W) (p : GoValue) (w : W) :
  implementsError (typeOf p) = true ->
  Some (typeOf p) ∈ typeTargets h ->
  typeOfError ∉ typeTargets h ->
  (forall x, x ∈ valueTargets h -> iface_eq (Some p) x = Ok false) ->
  With h handle (Panic p) w = (w, Panic p) /\
  With h record (Panic p) [] = ([], Panic p).
Proof.
  intros Herr _ Hnotin Hall. split; now apply With_error_unmatched.
Qed.

Lemma With_error_ignores_own_type_witness :
  With (Tackle [Tests.TypeFor (typeOf Tests.expected); Some Tests.unexpected])
    record (Panic Tests.expected) []
  = ([], Panic Tests.expected).
Proof.
  apply (With_error_ignores_own_type
           (Tackle [Tests.TypeFor (typeOf Tests.expected); Some Tests.unexpected])
           record Tests.expected []).
  - reflexivity.
  - constructor.
  - intros Hin. apply list_elem_of_singleton in Hin. discriminate Hin.
  - intros x Hin. apply list_elem_of_singleton in Hin as ->. reflexivity.
Defined.

(** C8: the code at the input where it leaves the claim.  With a value
    target of the uncomparable type of the payload, the call of [With] is none
    of Idle, Absorbed and Propagated: it ends in the run-time panic of the
    comparison. *)
Lemma With_fourth_outcome :
  ~ (reaches (Panic Uncomparable.raised)
       (With Uncomparable.byValue record (Panic Uncomparable.raised) []) Idle \/
     reaches (Panic Uncomparable.raised)
       (With Uncomparable.byValue record (Panic Uncomparable.raised) []) Absorbed \/
     reaches (Panic Uncomparable.raised)
       (With Uncomparable.byValue record (Panic Uncomparable.raised) []) Propagated) /\
  reaches (Panic Uncomparable.raised)
    (With Uncomparable.byValue record (Panic Uncomparable.raised) []) Faulted.
Proof.
  split.
  - intros [[Hidle _]|[(p & _ & Habs)|(p & Hp & Hprop)]].
    + discriminate Hidle.
    + discriminate Habs.
    + injection Hp as <-. discriminate Hprop.
  - exists Uncomparable.raised. repeat split.
Qed.


(** ** Further properties: the three regimes of [With] *)

Lemma scan_false_inv {E : Type} (eq : E -> E -> result bool) (v : E) (l : list E) :
  scan eq v l = Ok false -> forall x, x ∈ l -> eq v x = Ok false.
Proof.
  induction l as [|y l IH]; simpl; intros Hscan x Hin; [inversion Hin|].
  destruct (eq v y) as [[|]|t] eqn:Hy; try discriminate.
  apply elem_of_cons in Hin as [->|Hin]; [exact Hy | now apply IH].
Qed.

Lemma With_takes {W : Type} (h : Handler) (handle : @callback W) (p : GoValue) (w : W) :
  matched h p -> With h handle (Panic p) w = handle (Some p) w.
Proof.
  unfold matched. destruct (implementsError (typeOf p)) eqn:Herr.
  - intros Hm. destruct (decide (typeOfError ∈ typeTargets h)) as [Hin|Hnotin].
    + now apply With_general.
    + destruct Hm as [Hin|(x & Hx & Heq)]; [contradiction|].
      now apply (With_specific h handle p w x).
  - intros Hin. rewrite With_artefact by exact Herr. now rewrite bool_decide_eq_true_2.
Qed.

Lemma With_faults {W : Type} (h : Handler) (handle : @callback W) (p : GoValue) (w : W) :
  faulting h p -> With h handle (Panic p) w = (w, Panic (runtime_error (typeOf p))).
Proof. intros (Herr & Hnotin & Hc & a & Hin & Hty). now apply (With_error_fault h handle p w a). Qed.

Lemma With_passes {W : Type} (h : Handler) (handle : @callback W) (p : GoValue) (w : W) :
  ~ matched h p -> ~ faulting h p -> With h handle (Panic p) w = (w, Panic p).
Proof.
  intros Hunmatched Hsafe. destruct (implementsError (typeOf p)) eqn:Herr.
  - destruct (unmatched_compares_false h p Herr Hunmatched Hsafe) as [Hnotin Hall].
    now apply With_error_unmatched.
  - rewrite With_artefact by exact Herr.
    unfold matched in Hunmatched. rewrite Herr in Hunmatched.
    now rewrite bool_decide_eq_false_2.
Qed.

Lemma matched_not_faulting (h : Handler) (p : GoValue) : matched h p -> ~ faulting h p.
Proof.
  unfold matched. intros Hm (Herr & Hnotin & Hc & _). rewrite Herr in Hm.
  destruct Hm as [Hin|(x & _ & Heq)]; [contradiction|].
  apply iface_eq_true_comparable in Heq. congruence.
Qed.




(** X2: the run-time panic of the scan has an exact trigger: an error payload of
    an uncomparable type, no descriptor of [error] among the type targets, and
    a value target of the payload's dynamic type.  Then the callback is not
    called, the state is untouched, and [With] leaves with the run-time error
    in place of the payload; such a payload is never taken through a value
    target. *)
Theorem With_uncomparable_payload {W : Type}
    (h : Handler) (handle : @callback W) (p : GoValue) (w : W) :
  implementsError (typeOf p) = true ->
  comparable (typeOf p) = false ->
  typeOfError ∉ typeTargets h ->
  ((exists a, Some a ∈ valueTargets h /\ typeOf a = typeOf p) ->
     With h handle (Panic p) w = (w, Panic (runtime_error (typeOf p))) /\
     With h record (Panic p) [] = ([], Panic (runtime_error (typeOf p)))) /\
  ((forall a, Some a ∈ valueTargets h -> typeOf a <> typeOf p) ->
     With h handle (Panic p) w = (w, Panic p)) /\
  With h record (Panic p) [] <> ([Some p], Return).
Proof.
  intros Herr Hc Hnotin. split; [|split].
  - intros Hex. split; apply With_faults; unfold faulting; auto.
  - intros Hnone. apply With_error_unmatched; auto.
    intros x Hx. destruct (iface_eq (Some p) x) as [[|]|t] eqn:Heq.
    + apply iface_eq_true_comparable in Heq. congruence.
    + reflexivity.
    + apply iface_eq_fault in Heq as (_ & _ & a & -> & Hty). now destruct (Hnone a Hx).
  - rewrite With_error_scan by assumption.
    destruct (scan iface_eq (Some p) (valueTargets h)) as [[|]|t] eqn:Hscan;
      [|discriminate..].
    apply scan_true_inv in Hscan as (x & _ & Heq).
    apply iface_eq_true_comparable in Heq. congruence.
Qed.

Lemma With_uncomparable_payload_witness :
  With Uncomparable.byValue record (Panic Uncomparable.raised) []
  = ([], Panic (runtime_error (typeOf Uncomparable.raised))).
Proof.
  destruct (With_uncomparable_payload Uncomparable.byValue record Uncomparable.raised [])
    as (Hfault & _).
  - reflexivity.
  - reflexivity.
  - inversion 1.
  - apply Hfault. exists Uncomparable.registered. split; [constructor | reflexivity].
Defined.

(** ** Further properties: targets as sets *)

Lemma scan_iface_eq_same_elements (p : GoValue) (l l' : list error) :
  (forall x, x ∈ l <-> x ∈ l') ->
  scan iface_eq (Some p) l = scan iface_eq (Some p) l'.
Proof.
  intros Hsame. destruct (scan iface_eq (Some p) l) as [[|]|t] eqn:Hscan; symmetry.
  - apply scan_true_inv in Hscan as (x & Hin & Heq).
    apply (scan_true iface_eq (Some p) l' x); [|now apply Hsame|exact Heq].
    intros y u _. now apply (iface_eq_true_excludes_fault p x).
  - apply scan_false. intros x Hin. apply Hsame in Hin.
    now apply (scan_false_inv iface_eq (Some p) l).
  - apply scan_fault_inv in Hscan as (x & Hin & Heq).
    apply (scan_fault iface_eq (Some p) l' x t); [| |now apply Hsame|exact Heq].
    + intros y _ Hy. now apply (iface_eq_true_excludes_fault p y x t) in Hy.
    + intros y u _ Hy. apply iface_eq_fault in Hy as (-> & _).
      now apply iface_eq_fault in Heq as (-> & _).
Qed.

(** X5: [With] sees the targets of a handler as two sets: handlers with the same
    type targets and the same value targets, in any order and with any
    repetitions, end every call alike, also when the call ends in the
    run-time panic of a comparison. *)
Theorem With_same_targets {W : Type}
    (h1 h2 : Handler) (handle : @callback W) (unwinding : Completion) (w : W) :
  (forall d, d ∈ typeTargets h1 <-> d ∈ typeTargets h2) ->
  (forall x, x ∈ valueTargets h1 <-> x ∈ valueTargets h2) ->
  With h1 handle unwinding w = With h2 handle unwinding w.
Proof.
  intros Hts Hvs. destruct unwinding as [|p]; [reflexivity|].
  destruct (implementsError (typeOf p)) eqn:Herr.
  - destruct (decide (typeOfError ∈ typeTargets h1)) as [Hin|Hnotin].
    + rewrite !With_general; auto. now apply Hts.
    + rewrite !With_error_scan; auto; [|now rewrite <- Hts].
      now rewrite (scan_iface_eq_same_elements p _ _ Hvs).
  - rewrite !With_artefact by exact Herr.
    now rewrite (bool_decide_ext _ _ (Hts (Some (typeOf p)))).
Qed.

Lemma With_same_targets_witness :
  With (Tackle [Some Tests.expected; Tests.TypeFor TString; Some Tests.expected])
    record (Panic Tests.expected) []
  = With (Tackle [Tests.TypeFor TString; Some Tests.expected; Tests.TypeFor TString])
      record (Panic Tests.expected) [].
Proof.
  apply With_same_targets.
  - intros d. cbn. rewrite !elem_of_cons. tauto.
  - intros x. cbn. rewrite !elem_of_cons. tauto.
Defined.

(** X6: targets only add: a payload that a handler takes is taken by every
    handler that has at least its targets; more value targets never bring in
    a comparison that panics for it. *)
Theorem With_more_targets {W : Type}
    (h h' : Handler) (handle : @callback W) (p : GoValue) (w : W) :
  matched h p ->
  (forall d, d ∈ typeTargets h -> d ∈ typeTargets h') ->
  (forall x, x ∈ valueTargets h -> x ∈ valueTargets h') ->
  With h handle (Panic p) w = handle (Some p) w /\
  With h' handle (Panic p) w = handle (Some p) w.
Proof.
  intros Hm Hts Hvs. split; [now apply With_takes|].
  apply With_takes. unfold matched in *.
  destruct (implementsError (typeOf p)).
  - destruct Hm as [Hin|(x & Hx & Heq)]; [left; auto | right; eauto].
  - auto.
Qed.

Lemma With_more_targets_witness :
  With (Tackle [Some (ErrList ["a"]); Some Tests.expected; Tests.TypeFor TInt])
    record (Panic Tests.expected) []
  = ([Some Tests.expected], Return).
Proof.
  destruct (With_more_targets (Tackle [Some Tests.expected])
              (Tackle [Some (ErrList ["a"]); Some Tests.expected; Tests.TypeFor TInt])
              record Tests.expected []) as (_ & Hmore).
  - unfold matched. cbn. right. exists (Some Tests.expected).
    split; [constructor | reflexivity].
  - inversion 1.
  - intros x Hx. apply list_elem_of_singleton in Hx as ->. cbn.
    rewrite !elem_of_cons. tauto.
  - exact Hmore.
Defined.

(** ** Further properties: [Tackle] and [With] together *)

Lemma Tackle_targets (targets : list any) :
  Tackle targets =
  {| artefactTypes := Slice (omap assert_reflect_Type targets);
     errorTypes := Slice (omap assert_error targets) |}.
Proof. unfold Tackle, make0. now rewrite Tackle_range_spec. Qed.

Lemma Tackle_typeTargets_elem (targets : list any) (d : GoType) :
  Some d ∈ typeTargets (Tackle targets) <-> Some (VReflectType d) ∈ targets.
Proof.
  rewrite Tackle_targets. unfold typeTargets. simpl. rewrite list_elem_of_omap. split.
  - intros (t & Hin & Ht). apply assert_reflect_Type_same in Ht. now subst t.
  - intros Hin. exists (Some (VReflectType d)). now split.
Qed.

Lemma Tackle_valueTargets_elem (targets : list any) (x : error) :
  x ∈ valueTargets (Tackle targets) <->
  x ∈ targets /\ exists v, x = Some v /\ implementsError (typeOf v) = true.
Proof.
  rewrite Tackle_targets. unfold valueTargets. simpl. rewrite list_elem_of_omap. split.
  - intros (t & Hin & Ht). pose proof (assert_error_same _ _ Ht) as ->.
    split; [exact Hin|]. destruct t as [v|]; simpl in Ht; [|discriminate].
    exists v. split; [reflexivity|]. now destruct (implementsError (typeOf v)).
  - intros (Hin & v & -> & Hv). exists (Some v). split; [exact Hin|].
    simpl. now rewrite Hv.
Qed.

(** X7: calls of [Tackle] compose: the handler of two target lists put together
    has the type targets of the first followed by those of the second, and
    the same for the value targets. *)
Theorem Tackle_app (targets1 targets2 : list any) :
  Tackle (targets1 ++ targets2) =
  {| artefactTypes :=
       Slice (typeTargets (Tackle targets1) ++ typeTargets (Tackle targets2));
     errorTypes :=
       Slice (valueTargets (Tackle targets1) ++ valueTargets (Tackle targets2)) |}.
Proof.
  rewrite !Tackle_targets. unfold typeTargets, valueTargets. simpl.
  now rewrite !omap_app.
Qed.

(** X8: what a call [Tackle(targets...).With(handle)] does with a payload that
    is not an error is decided by one thing, whether the descriptor of the
    payload's dynamic type is among the arguments of [Tackle].  Passing the
    value itself registers nothing: [Tackle(p)] lets [panic(p)] through
    (the one value that is the descriptor of its own type apart). *)
Theorem Tackle_With_artefact {W : Type}
    (targets : list any) (handle : @callback W) (p : GoValue) (w : W) :
  implementsError (typeOf p) = false ->
  (Some (VReflectType (typeOf p)) ∈ targets ->
     With (Tackle targets) handle (Panic p) w = handle (Some p) w) /\
  (Some (VReflectType (typeOf p)) ∉ targets ->
     With (Tackle targets) handle (Panic p) w = (w, Panic p)) /\
  (p <> VReflectType TReflectRType ->
     With (Tackle [Some p]) handle (Panic p) w = (w, Panic p)).
Proof.
  intros Herr. split; [|split].
  - intros Hin. apply With_takes. unfold matched. rewrite Herr.
    now apply Tackle_typeTargets_elem.
  - intros Hnotin. apply With_passes.
    + unfold matched. rewrite Herr. now rewrite Tackle_typeTargets_elem.
    + intros (Herr' & _). congruence.
  - intros Hne. apply With_passes.
    + unfold matched. rewrite Herr. rewrite Tackle_typeTargets_elem.
      rewrite list_elem_of_singleton. intros [= Heq].
      assert (Hty : typeOf p = TReflectRType) by (rewrite <- Heq; reflexivity).
      apply Hne. rewrite <- Heq. now rewrite Hty.
    + intros (Herr' & _). congruence.
Qed.

Lemma Tackle_With_artefact_witness :
  With (Tackle [Some (VString "boom")]) record (Panic (VString "boom")) []
  = ([], Panic (VString "boom")).
Proof.
  destruct (Tackle_With_artefact [Some (VString "boom")] record (VString "boom") [])
    as (_ & _ & Hself).
  - reflexivity.
  - apply Hself. discriminate.
Defined.

(** X9: what a call [Tackle(targets...).With(handle)] does with a payload that
    is an error, read off the arguments of [Tackle]: with the descriptor of
    [error] among them the callback runs, whatever the other arguments are;
    so it does with the payload itself among them, when the payload equals
    itself; and with neither the descriptor of [error] nor an error of the
    payload's dynamic type among them the payload is raised again, also when
    the descriptor of its own type was passed. *)
Theorem Tackle_With_error {W : Type}
    (targets : list any) (handle : @callback W) (p : GoValue) (w : W) :
  implementsError (typeOf p) = true ->
  (Some (VReflectType TInterfaceError) ∈ targets ->
     With (Tackle targets) handle (Panic p) w = handle (Some p) w) /\
  (Some p ∈ targets -> iface_eq (Some p) (Some p) = Ok true ->
     With (Tackle targets) handle (Panic p) w = handle (Some p) w) /\
  (Some (VReflectType TInterfaceError) ∉ targets ->
   (forall v, Some v ∈ targets -> implementsError (typeOf v) = true ->
      typeOf v <> typeOf p) ->
     With (Tackle targets) handle (Panic p) w = (w, Panic p)).
Proof.
  intros Herr. split; [|split].
  - intros Hin. apply With_takes. unfold matched. rewrite Herr. left.
    now apply Tackle_typeTargets_elem.
  - intros Hin Hrefl. apply With_takes. unfold matched. rewrite Herr. right.
    exists (Some p). split; [|exact Hrefl].
    apply Tackle_valueTargets_elem. eauto.
  - intros Hnotin Hother. apply With_error_unmatched.
    + exact Herr.
    + unfold typeOfError. now rewrite Tackle_typeTargets_elem.
    + intros x Hx. apply Tackle_valueTargets_elem in Hx as (Hin & v & -> & Hv).
      unfold iface_eq. rewrite GoType_eqb_neq; [reflexivity|].
      intros Heq. now apply (Hother v Hin Hv).
Qed.

Lemma Tackle_With_error_witness :
  With (Tackle [Tests.TypeFor (typeOf Tests.expected); Some (ErrList ["a"])])
    record (Panic Tests.expected) []
  = ([], Panic Tests.expected).
Proof.
  destruct (Tackle_With_error
              [Tests.TypeFor (typeOf Tests.expected); Some (ErrList ["a"])]
              record Tests.expected []) as (_ & _ & Hpass).
  - reflexivity.
  - apply Hpass.
    + rewrite !elem_of_cons. intros [Heq|[Heq|Hin]]; [discriminate..|inversion Hin].
    + intros v Hin _. rewrite !elem_of_cons in Hin.
      destruct Hin as [Heq|[Heq|Hin]];
        [injection Heq as ->; discriminate | injection Heq as ->; discriminate
        | inversion Hin].
Defined.

(** ** Further properties: several handlers in one function, and in its callers *)

Section DeferFacts.
Context {W : Type}.


Lemma run_attached_idle (attached : list (Handler * @callback W)) (w : W) :
  run_deferred (attach <$> attached) Return w = (w, Return).
Proof. induction attached as [|a attached IH]; simpl; [reflexivity | exact IH]. Qed.

End DeferFacts.

(** X10: a function that leaves normally runs none of the callbacks of its
    deferred handlers, however many it registered: the state its body left
    is the state it returns with. *)
Theorem function_exit_normal {W : Type}
    (registered : list (Handler * @callback W)) (body : W -> W * Completion) (w w' : W) :
  body w = (w', Return) ->
  function_exit (attach <$> registered) body w = (w', Return).
Proof.
  intros Hbody. unfold function_exit. rewrite Hbody, <- fmap_reverse.
  apply run_attached_idle.
Qed.

Lemma function_exit_normal_witness :
  function_exit (attach <$> [(Tackle [Tests.TypeFor TInterfaceError], record);
                             (Tackle [Tests.TypeFor TString], record)])
    (fun log => (log, Return)) []
  = ([], Return).
Proof. now apply function_exit_normal. Defined.





(** X13: when the scan of a handler panics, the handlers registered before it in
    the function see the run-time error and not the payload: one that takes
    every error has its callback run on the run-time error, and the value
    that was raised is lost. *)
Theorem function_exit_fault_reaches_general {W : Type}
    (earlier : list (Handler * @callback W)) (g f : Handler * @callback W)
    (p : GoValue) (w : W) :
  faulting f.1 p ->
  typeOfError ∈ typeTargets g.1 ->
  runtime_error (typeOf p) <> p /\
  function_exit (attach <$> (earlier ++ [g; f])%list) (panics p) w
    = (let '(w', unwinding) := g.2 (Some (runtime_error (typeOf p))) w in
       run_deferred (attach <$> reverse earlier) unwinding w').
Proof.
  intros Hf Hg. split.
  - apply runtime_error_distinct. now destruct Hf as (_ & _ & Hc & _).
  - unfold function_exit, panics.
    rewrite <- fmap_reverse, reverse_app. simpl.
    unfold attach at 1. rewrite With_faults by exact Hf.
    unfold attach at 1. now rewrite With_general.
Qed.

Lemma function_exit_fault_reaches_general_witness :
  function_exit (attach <$> ([] ++ [(Tackle [Tests.TypeFor TInterfaceError], record);
                                    (Uncomparable.byValue, record)])%list)
    (panics Uncomparable.raised) []
  = ([Some (runtime_error (typeOf Uncomparable.raised))], Return).
Proof.
  apply (function_exit_fault_reaches_general []
           (Tackle [Tests.TypeFor TInterfaceError], record)
           (Uncomparable.byValue, record) Uncomparable.raised []).
  - unfold faulting. cbn. repeat split; [inversion 1|].
    exists Uncomparable.registered. split; [constructor | reflexivity].
  - constructor.
Defined.

(** ** Further properties: the tests with two mocks *)

Lemma executed_Handle_same (m : positive) (artefact : any) (t : testing) :
  executed m (Handle m artefact t).1 = true.
Proof. unfold executed, Handle. simpl. now rewrite lookup_insert_eq. Qed.

Lemma executed_Handle_other (m m' : positive) (artefact : any) (t : testing) :
  m <> m' -> executed m' (Handle m artefact t).1 = executed m' t.
Proof. intros Hne. unfold executed, Handle. simpl. now rewrite lookup_insert_ne. Qed.

Lemma executed_fresh (m : positive) (addresses : list positive) :
  executed m (fresh addresses) = false.
Proof.
  unfold executed, fresh. simpl.
  destruct (list_to_map _ !! m) as [o|] eqn:Hlook; [|reflexivity].
  apply elem_of_list_to_map_2 in Hlook.
  apply list_elem_of_fmap in Hlook as (a & [= _ ->] & _). reflexivity.
Qed.

(** X14: the tests that defer two handlers with a mock each hold for every pair
    of handlers and every payload of their shape.  When the handler
    registered second takes the payload, its mock is executed, the mock of
    the first is not, and the test returns without a failed assertion; when
    the second lets the payload through and the first takes it, it is the
    other way round. *)
Theorem two_handlers_tests
    (h1st h2nd : Handler) (m1st m2nd : positive) (p : GoValue) :
  m1st <> m2nd ->
  (matched h2nd p ->
     exists t,
       two_handlers [assertNotExecuted m1st; assertExecuted m2nd]
         h1st m1st h2nd m2nd p (fresh [m1st; m2nd]) = (t, Return) /\
       failed t = false /\ executed m2nd t = true /\ executed m1st t = false) /\
  (~ matched h2nd p -> ~ faulting h2nd p -> matched h1st p ->
     exists t,
       two_handlers [assertExecuted m1st; assertNotExecuted m2nd]
         h1st m1st h2nd m2nd p (fresh [m1st; m2nd]) = (t, Return) /\
       failed t = false /\ executed m1st t = true /\ executed m2nd t = false).
Proof.
  intros Hne. split.
  - intros Hm.
    exists (Handle m2nd (Some p) (fresh [m1st; m2nd])).1.
    assert (H2 : executed m2nd (Handle m2nd (Some p) (fresh [m1st; m2nd])).1 = true)
      by apply executed_Handle_same.
    assert (H1 : executed m1st (Handle m2nd (Some p) (fresh [m1st; m2nd])).1 = false)
      by (rewrite executed_Handle_other by congruence; apply executed_fresh).
    split; [|now repeat split].
    unfold two_handlers, function_exit, panics. cbn [app reverse rev_append run_deferred].
    rewrite With_takes by exact Hm.
    change (Handle m2nd (Some p) (fresh [m1st; m2nd]))
      with ((Handle m2nd (Some p) (fresh [m1st; m2nd])).1, Return).
    cbn [With recover]. unfold assertExecuted, assertNotExecuted.
    now rewrite H2, H1.
  - intros Hn Hs Hm.
    exists (Handle m1st (Some p) (fresh [m1st; m2nd])).1.
    assert (H1 : executed m1st (Handle m1st (Some p) (fresh [m1st; m2nd])).1 = true)
      by apply executed_Handle_same.
    assert (H2 : executed m2nd (Handle m1st (Some p) (fresh [m1st; m2nd])).1 = false)
      by (rewrite executed_Handle_other by congruence; apply executed_fresh).
    split; [|now repeat split].
    unfold two_handlers, function_exit, panics. cbn [app reverse rev_append run_deferred].
    rewrite With_passes by assumption. rewrite With_takes by exact Hm.
    change (Handle m1st (Some p) (fresh [m1st; m2nd]))
      with ((Handle m1st (Some p) (fresh [m1st; m2nd])).1, Return).
    cbn [With recover]. unfold assertExecuted, assertNotExecuted.
    now rewrite H2, H1.
Qed.

Lemma two_handlers_tests_witness :
  exists t,
    two_handlers [assertNotExecuted 1; assertExecuted 2]
      (Tackle [Tests.TypeFor TInterfaceError]) 1%positive
      (Tackle [Tests.TypeFor TInterfaceError]) 2%positive
      (errors_New 4 "mock error") (fresh [1; 2]%positive) = (t, Return) /\
    failed t = false /\ executed 2 t = true /\ executed 1 t = false.
Proof.
  destruct (two_handlers_tests
              (Tackle [Tests.TypeFor TInterfaceError])
              (Tackle [Tests.TypeFor TInterfaceError])
              1%positive 2%positive (errors_New 4 "mock error")) as (Hlater & _).
  - discriminate.
  - apply Hlater. unfold matched. cbn. left. constructor.
Defined.

(** The tests of [TestHandler] as they are written, with their mocks. *)
Module TestHandlerRuns.
Import Tests.

(** "handle different artefact types with same handler": one mock behind
    two handlers. *)
Example same_handler :
  let r := function_exit
             [assertExecuted 1; With (Tackle [TypeFor TInterfaceError]) (Handle 1);
              With (Tackle [TypeFor TString]) (Handle 1)]
             (panics (VString "error message string")) (fresh [1%positive]) in
  r.2 = Return /\ failed r.1 = false /\ executed 1 r.1 = true.
Proof. vm_compute. repeat split. Qed.

(** "handle different artefact types with different handlers". *)
Example different_handlers :
  let r := two_handlers [assertNotExecuted 2; assertExecuted 1]
             (Tackle [TypeFor TString]) 1 (Tackle [TypeFor TInterfaceError]) 2
             (VString "error message string") (fresh [1; 2]%positive) in
  r.2 = Return /\ failed r.1 = false /\ executed 1 r.1 = true /\ executed 2 r.1 = false.
Proof. vm_compute. repeat split. Qed.

(** "no matched artefact type": the closure deferred first recovers the 7
    that both handlers let through. *)
Example no_matched_artefact_type :
  let r := function_exit
             [assertNotExecuted 1; expectFallthrough;
              With (Tackle [TypeFor TInterfaceError]) (Handle 1);
              With (Tackle [TypeFor TString]) (Handle 1)]
             (panics (VInt 7)) (fresh [1%positive]) in
  r.2 = Return /\ failed r.1 = false /\ executed 1 r.1 = false.
Proof. vm_compute. repeat split. Qed.

(** "no further execution after panic was captured". *)
Example no_further_execution :
  let r := two_handlers [assertExecuted 1; assertNotExecuted 2]
             (Tackle [Some (errors_New 5 "mock error 1st")]) 1
             (Tackle [Some (errors_New 6 "mock error 2nd")]) 2
             (errors_New 5 "mock error 1st") (fresh [1; 2]%positive) in
  r.2 = Return /\ failed r.1 = false /\ executed 1 r.1 = true /\ executed 2 r.1 = false.
Proof. vm_compute. repeat split. Qed.

End TestHandlerRuns.
